(** * Climate dashboard ([app.py]): data loading, aggregation and views

    A shallow embedding of the data path of [app.py] and the properties of
    its loader, filter step and chart renderers.

    Modelling conventions.
    - A pandas [DataFrame] is a list of labelled columns, in column order.
      A column ([Series]) is either numeric ([NumCol], dtype int64 or
      float64) or of dtype object ([ObjCol], strings).  A missing cell
      (NaN) is [None].
    - float64 values are modelled by exact rationals ([Q]); rounding is
      not modelled.  Equality of numbers is [Qeq] ([==]).
    - A Python exception is a value of [Exception]; code that may raise
      lives in the error monad [Exn]. *)

From Stdlib Require Import String Ascii.
From Stdlib Require Import List Bool Arith Lia.
From Stdlib Require Import ZArith QArith Qfield.
From Stdlib Require Import Permutation Sorted.
Import ListNotations.

Local Open Scope string_scope.
Local Open Scope list_scope.
Local Open Scope Q_scope.

(** ** Exceptions and the error monad *)

Inductive Exception : Type :=
| FileNotFoundError
| EmptyDataError
| ParserError
| ValueError
| TypeError
| KeyError (label : string).

Inductive Exn (A : Type) : Type :=
| Ok (a : A)
| Raise (e : Exception).

Arguments Ok {A} a.
Arguments Raise {A} e.

Definition bind {A B : Type} (m : Exn A) (k : A -> Exn B) : Exn B :=
  match m with
  | Ok a => k a
  | Raise e => Raise e
  end.

Notation "x <- m ;; k" := (bind m (fun x => k))
  (at level 61, m at next level, right associativity).

Fixpoint mapM {A B : Type} (f : A -> Exn B) (l : list A) : Exn (list B) :=
  match l with
  | [] => Ok []
  | a :: t => b <- f a ;; bs <- mapM f t ;; Ok (b :: bs)
  end.

(** ** Cells, columns and frames *)

Inductive Scalar : Type :=
| Num (q : Q)
| Str (s : string).

Inductive Series : Type :=
| NumCol (xs : list (option Q))
| ObjCol (xs : list (option string)).

Definition DataFrame : Type := list (string * Series).

Definition cells (s : Series) : list (option Scalar) :=
  match s with
  | NumCol xs => map (option_map Num) xs
  | ObjCol xs => map (option_map Str) xs
  end.

Definition series_len (s : Series) : nat :=
  match s with
  | NumCol xs => length xs
  | ObjCol xs => length xs
  end.

(** [df.columns] *)
Definition columns (df : DataFrame) : list string := map fst df.

(** [len(df)]: every column of a frame has that many cells. *)
Definition row_count (df : DataFrame) : nat :=
  match df with
  | [] => 0%nat
  | (_, s) :: _ => series_len s
  end.

Definition rectangular (df : DataFrame) : bool :=
  forallb (fun c => Nat.eqb (series_len (snd c)) (row_count df)) df.

(** [df[col]]; a label that is not a column raises [KeyError]. *)
Fixpoint get_col (df : DataFrame) (col : string) : option Series :=
  match df with
  | [] => None
  | (l, s) :: t => if String.eqb l col then Some s else get_col t col
  end.

Definition getitem (df : DataFrame) (col : string) : Exn Series :=
  match get_col df col with
  | Some s => Ok s
  | None => Raise (KeyError col)
  end.

(** [df[col] = s] *)
Fixpoint set_col (df : DataFrame) (col : string) (s : Series) : DataFrame :=
  match df with
  | [] => [(col, s)]
  | (l, s0) :: t =>
      if String.eqb l col then (l, s) :: t else (l, s0) :: set_col t col s
  end.

(** [np.number] dtypes, as [select_dtypes(include=np.number)] tests them. *)
Definition is_number (s : Series) : bool :=
  match s with
  | NumCol _ => true
  | ObjCol _ => false
  end.

Definition select_dtypes_number (df : DataFrame) : DataFrame :=
  filter (fun c => is_number (snd c)) df.

(** ** Numeric reductions (NaN is skipped, as pandas does by default) *)

Fixpoint dropna {A : Type} (xs : list (option A)) : list A :=
  match xs with
  | [] => []
  | Some x :: t => x :: dropna t
  | None :: t => dropna t
  end.

Definition Qsum (l : list Q) : Q := fold_right Qplus 0 l.

Definition Qnat (n : nat) : Q := inject_Z (Z.of_nat n).

(** [Series.mean()]: NaN when there is no value. *)
Definition mean (xs : list (option Q)) : option Q :=
  match dropna xs with
  | [] => None
  | v => Some (Qsum v / Qnat (length v))
  end.

(** [Series.sum()]: 0 when there is no value. *)
Definition sum (xs : list (option Q)) : Q := Qsum (dropna xs).

Section Sorting.
Context {A : Type} (before : A -> A -> bool).

Fixpoint insert_by (x : A) (l : list A) : list A :=
  match l with
  | [] => [x]
  | y :: t => if before x y then x :: l else y :: insert_by x t
  end.

(** A stable sort: of two rows that compare equal, the one that comes
    first in the input comes first in the output. *)
Definition sort_by (l : list A) : list A := fold_right insert_by [] l.
End Sorting.

Definition sort_asc (l : list Q) : list Q := sort_by Qle_bool l.

(** [Series.median()]: the middle value of the sorted non-missing values,
    the mean of the two middle ones when their number is even, NaN when
    there is none. *)
Definition median (xs : list (option Q)) : option Q :=
  let v := sort_asc (dropna xs) in
  let n := length v in
  if Nat.eqb n 0 then None
  else if Nat.odd n then Some (nth (n / 2) v 0)
  else Some ((nth (n / 2 - 1) v 0 + nth (n / 2) v 0) / 2).

(** [Series.fillna(value)]; filling with NaN changes nothing. *)
Definition fillna (xs : list (option Q)) (value : option Q) : list (option Q) :=
  match value with
  | None => xs
  | Some v => map (fun c => match c with None => Some v | Some _ => c end) xs
  end.

(** [s.fillna(s.median())] *)
Definition fill (xs : list (option Q)) : list (option Q) :=
  fillna xs (median xs).

(** ** The loader: renaming and imputation (lines 17-26) *)

Inductive CsvFile : Type :=
| Absent                       (* no file at the path *)
| Empty                        (* a file with no columns to parse *)
| Malformed                    (* a file the parser rejects *)
| Content (df : DataFrame).    (* the frame [pd.read_csv] returns *)

Definition read_csv (file : CsvFile) : Exn DataFrame :=
  match file with
  | Absent => Raise FileNotFoundError
  | Empty => Raise EmptyDataError
  | Malformed => Raise ParserError
  | Content df => Ok df
  end.

Definition column_names : list string :=
  ["Year"; "Country"; "Avg_Temperature_¬∞C"; "CO2_Emissions_Tons/Capita";
   "Sea_Level_Rise_mm"; "Rainfall_mm"; "Population"; "Renewable_Energy_%";
   "Extreme_Weather_Events"; "Forest_Area_%"].

(** [df.columns = names]: the Nth column takes the Nth name; a list of
    another length raises [ValueError] (length mismatch). *)
Definition set_columns (df : DataFrame) (names : list string) : Exn DataFrame :=
  if Nat.eqb (length names) (length df)
  then Ok (combine names (map snd df))
  else Raise ValueError.

(** The body of the imputation loop for one label. *)
Definition impute_col (df : DataFrame) (col : string) : DataFrame :=
  if negb (String.eqb col "Year") then
    match get_col df col with
    | Some (NumCol xs) => set_col df col (NumCol (fill xs))
    | _ => df
    end
  else df.

(** [for col in df.select_dtypes(include=np.number).columns: ...] *)
Definition impute (df : DataFrame) : DataFrame :=
  fold_left impute_col (columns (select_dtypes_number df)) df.

(** ** Group-by and aggregation (lines 29-41) *)

Definition scalar_eqb (a b : Scalar) : bool :=
  match a, b with
  | Num x, Num y => Qeq_bool x y
  | Str x, Str y => String.eqb x y
  | _, _ => false
  end.

(** Order of group keys.  A column holds cells of one kind, so the two
    mixed cases never meet in one sort. *)
Definition scalar_leb (a b : Scalar) : bool :=
  match a, b with
  | Num x, Num y => Qle_bool x y
  | Str x, Str y => String.leb x y
  | Num _, Str _ => true
  | Str _, Num _ => false
  end.

(** Distinct values, in order of first appearance. *)
Fixpoint unique (l : list Scalar) : list Scalar :=
  match l with
  | [] => []
  | x :: t => x :: filter (fun y => negb (scalar_eqb x y)) (unique t)
  end.

(** The group keys of [groupby(col)]: the distinct non-missing values of
    the key column (rows whose key is NaN belong to no group), sorted. *)
Definition group_keys (key : Series) : list Scalar :=
  sort_by scalar_leb (unique (dropna (cells key))).

(** The rows of one group, as a boolean mask over the rows. *)
Definition key_mask (key : Series) (k : Scalar) : list bool :=
  map (fun c => match c with
                | Some k' => scalar_eqb k' k
                | None => false
                end) (cells key).

(** Boolean indexing: the cells at the positions where the mask is true. *)
Fixpoint take_rows {A : Type} (mask : list bool) (xs : list A) : list A :=
  match mask, xs with
  | b :: m, x :: t => if b then x :: take_rows m t else take_rows m t
  | _, _ => []
  end.

Definition series_take (mask : list bool) (s : Series) : Series :=
  match s with
  | NumCol xs => NumCol (take_rows mask xs)
  | ObjCol xs => ObjCol (take_rows mask xs)
  end.

(** ['mean'] over one group.  On a column of strings pandas (2.x) raises
    [TypeError] as soon as the group holds a string. *)
Definition agg_mean (s : Series) (mask : list bool) : Exn (option Q) :=
  match s with
  | NumCol xs => Ok (mean (take_rows mask xs))
  | ObjCol xs =>
      match dropna (take_rows mask xs) with
      | [] => Ok None
      | _ :: _ => Raise TypeError
      end
  end.

(** ['sum'] over one group: 0 when the group has no value.  On a column
    of strings the non-missing cells are concatenated. *)
Definition agg_sum (s : Series) (mask : list bool) : Scalar :=
  match s with
  | NumCol xs => Num (sum (take_rows mask xs))
  | ObjCol xs =>
      match dropna (take_rows mask xs) with
      | [] => Num 0
      | v => Str (String.concat "" v)
      end
  end.

(** One row of [country_stats]. *)
Record CountryStat : Type := {
  Country : Scalar;
  Avg_Temp : option Q;
  Avg_CO2_Emissions : option Q;
  Avg_Sea_Level_Rise : option Q;
  Avg_Rainfall : option Q;
  Avg_Renewable_Energy : option Q;
  Total_Extreme_Weather_Events : Scalar;
  Avg_Forest_Area : option Q;
  Avg_Population : option Q
}.

(** [df.groupby('Country').agg(...).reset_index()] *)
Definition groupby_country_agg (df : DataFrame) : Exn (list CountryStat) :=
  key <- getitem df "Country" ;;
  temp <- getitem df "Avg_Temperature_¬∞C" ;;
  co2 <- getitem df "CO2_Emissions_Tons/Capita" ;;
  sea <- getitem df "Sea_Level_Rise_mm" ;;
  rain <- getitem df "Rainfall_mm" ;;
  renew <- getitem df "Renewable_Energy_%" ;;
  events <- getitem df "Extreme_Weather_Events" ;;
  forest <- getitem df "Forest_Area_%" ;;
  pop <- getitem df "Population" ;;
  mapM (fun k =>
          let m := key_mask key k in
          a_temp <- agg_mean temp m ;;
          a_co2 <- agg_mean co2 m ;;
          a_sea <- agg_mean sea m ;;
          a_rain <- agg_mean rain m ;;
          a_renew <- agg_mean renew m ;;
          a_forest <- agg_mean forest m ;;
          a_pop <- agg_mean pop m ;;
          Ok {| Country := k;
                Avg_Temp := a_temp;
                Avg_CO2_Emissions := a_co2;
                Avg_Sea_Level_Rise := a_sea;
                Avg_Rainfall := a_rain;
                Avg_Renewable_Energy := a_renew;
                Total_Extreme_Weather_Events := agg_sum events m;
                Avg_Forest_Area := a_forest;
                Avg_Population := a_pop |})
       (group_keys key).

(** The order [sort_values(ascending=False)] puts two values in: larger
    first, NaN last. *)
Definition desc_before (a b : option Q) : bool :=
  match a, b with
  | Some x, Some y => Qle_bool y x
  | Some _, None => true
  | None, Some _ => false
  | None, None => true
  end.

(** [sort_values(by='Avg_CO2_Emissions', ascending=False)] *)
Definition sort_values_desc (stats : list CountryStat) : list CountryStat :=
  sort_by (fun a b => desc_before (Avg_CO2_Emissions a) (Avg_CO2_Emissions b))
          stats.

(** [nlargest(n, 'Avg_CO2_Emissions')]: the first [n] rows in descending
    order of the column, ties in their order of appearance. *)
Definition nlargest (n : nat) (stats : list CountryStat) : list CountryStat :=
  firstn n (sort_values_desc stats).

(** ** [load_data] *)

Definition load_data_try (file : CsvFile) : Exn (DataFrame * list CountryStat) :=
  df <- read_csv file ;;
  df <- set_columns df column_names ;;
  let df := impute df in
  country_stats <- groupby_country_agg df ;;
  let country_stats := sort_values_desc country_stats in
  Ok (df, country_stats).

(** What [st.error] shows before [st.stop()] ends the run. *)
Inductive ErrorMessage : Type :=
| NotFoundMessage
| PreprocessingMessage (e : Exception).

Inductive LoadResult : Type :=
| Loaded (df : DataFrame) (country_stats : list CountryStat)
| Halted (shown : ErrorMessage).

Definition load_data (file : CsvFile) : LoadResult :=
  match load_data_try file with
  | Ok (df, country_stats) => Loaded df country_stats
  | Raise FileNotFoundError => Halted NotFoundMessage
  | Raise e => Halted (PreprocessingMessage e)
  end.

(** The script binds [df, country_stats = load_data()] and goes on with
    the rest of the page; [st.stop()] in a handler ends the run there. *)
Inductive Session (P : Type) : Type :=
| Stopped (shown : ErrorMessage)
| Rendered (page : P).

Arguments Stopped {P} shown.
Arguments Rendered {P} page.

Definition run_script {P : Type} (file : CsvFile)
    (rest : DataFrame -> list CountryStat -> P) : Session P :=
  match load_data file with
  | Loaded df country_stats => Rendered (rest df country_stats)
  | Halted shown => Stopped shown
  end.

(** ** Filter step (lines 102-105) *)

Definition filter_country (df : DataFrame) (selected_country : string)
    : Exn DataFrame :=
  if negb (String.eqb selected_country "All") then
    key <- getitem df "Country" ;;
    let mask := key_mask key (Str selected_country) in
    Ok (map (fun c => (fst c, series_take mask (snd c))) df)
  else Ok df.

(** ** Yearly trends (lines 112-131) *)

Record Trace : Type := {
  trace_name : string;
  trace_x : list Scalar;
  trace_y : list (option Q)
}.

Inductive TrendView : Type :=
| TrendPrompt
| TrendChart (title : string) (traces : list Trace).

(** [df_filtered.groupby('Year')[metrics].mean().reset_index()]: the
    years, and for each metric its mean in each year. *)
Definition yearly_means (df_filtered : DataFrame) (metrics : list string)
    : Exn (list Scalar * list (string * list (option Q))) :=
  year <- getitem df_filtered "Year" ;;
  cols <- mapM (fun metric =>
                  s <- getitem df_filtered metric ;;
                  ys <- mapM (fun k => agg_mean s (key_mask year k))
                             (group_keys year) ;;
                  Ok (metric, ys)) metrics ;;
  Ok (group_keys year, cols).

Fixpoint lookup {A : Type} (l : list (string * A)) (k : string) : Exn A :=
  match l with
  | [] => Raise (KeyError k)
  | (k', a) :: t => if String.eqb k' k then Ok a else lookup t k
  end.

Definition trend_title (selected_country : string) : string :=
  if negb (String.eqb selected_country "All")
  then "Yearly Trends for " ++ selected_country
  else "Global Yearly Trends".

Definition trend_view (df_filtered : DataFrame) (selected_country : string)
    (selected_metrics_time_series : list string) : Exn TrendView :=
  match selected_metrics_time_series with
  | [] => Ok TrendPrompt
  | _ :: _ =>
      yearly_data <- yearly_means df_filtered selected_metrics_time_series ;;
      traces <- mapM (fun metric =>
                        ys <- lookup (snd yearly_data) metric ;;
                        Ok {| trace_name := metric;
                              trace_x := fst yearly_data;
                              trace_y := ys |})
                     selected_metrics_time_series ;;
      Ok (TrendChart (trend_title selected_country) traces)
  end.

(** ** Correlation heatmap (lines 142-149) *)

Inductive CorrView : Type :=
| CorrPrompt
| Heatmap (title : string) (corr_matrix : list (list (option Q))).

(** The rows where both columns have a value. *)
Fixpoint complete_pairs (xs ys : list (option Q)) : list (Q * Q) :=
  match xs, ys with
  | Some x :: xt, Some y :: yt => (x, y) :: complete_pairs xt yt
  | _ :: xt, _ :: yt => complete_pairs xt yt
  | _, _ => []
  end.

(** The values [corr()] works on; a string is not a float. *)
Definition as_float (s : Series) : Exn (list (option Q)) :=
  match s with
  | NumCol xs => Ok xs
  | ObjCol xs =>
      match dropna xs with
      | [] => Ok (map (fun _ => None) xs)
      | _ :: _ => Raise ValueError
      end
  end.

Definition corr_title (selected_country : string) : string :=
  if negb (String.eqb selected_country "All")
  then "Correlation Matrix for " ++ selected_country
  else "Global Correlation Matrix".

(** The sum of the products of the deviations from the two means; for a
    column with itself, the sum of its squared deviations. *)
Definition co_moment (xs ys : list Q) : Q :=
  let n := Qnat (length xs) in
  let meanx := Qsum xs / n in
  let meany := Qsum ys / n in
  Qsum (map (fun v => (fst v - meanx) * (snd v - meany)) (combine xs ys)).

(** A square root on the rationals: the integer root of numerator times
    denominator, over the denominator.  It is exact on the square of a
    rational. *)
Definition Qsqrt (q : Q) : Q :=
  Z.sqrt (Qnum q * Zpos (Qden q)) # Qden q.

Section Correlation.
(** The square root of float64 arithmetic, which the rationals lack.
    All that is used of it is that it is exact on a square. *)
Variable sqrt : Q -> Q.

(** Pearson's coefficient as [corr()] computes it, over the rows where
    both columns have a value: the co-moment over the root of the
    product of the two second moments; NaN when there is no such row or
    when that root is zero. *)
Definition pearson (xs ys : list (option Q)) : option Q :=
  match complete_pairs xs ys with
  | [] => None
  | p =>
      let vx := map fst p in
      let vy := map snd p in
      let ssqdmx := co_moment vx vx in
      let ssqdmy := co_moment vy vy in
      let covxy := co_moment vx vy in
      let divisor := sqrt (ssqdmx * ssqdmy) in
      if negb (Qeq_bool divisor 0) then Some (covxy / divisor) else None
  end.

(** [df[metrics].corr()] *)
Definition corr (df : DataFrame) (metrics : list string)
    : Exn (list (list (option Q))) :=
  cols <- mapM (fun metric => s <- getitem df metric ;; as_float s) metrics ;;
  Ok (map (fun xs => map (fun ys => pearson xs ys) cols) cols).

Definition corr_view (df_filtered : DataFrame) (selected_country : string)
    (selected_metrics_time_series : list string) : Exn CorrView :=
  if Nat.ltb (length selected_metrics_time_series) 2 then Ok CorrPrompt
  else
    corr_matrix <- corr df_filtered selected_metrics_time_series ;;
    Ok (Heatmap (corr_title selected_country) corr_matrix).
End Correlation.

(** ** Scatter plot (lines 166-191) *)

Inductive ScatterView : Type :=
| ScatterWarning
| ScatterChart (points : list (option Scalar * option Scalar))
               (color : option (list (option Scalar))).

Definition has_column (df : DataFrame) (col : string) : bool :=
  existsb (String.eqb col) (columns df).

Definition scatter_view (df_filtered : DataFrame) (selected_country : string)
    (scatter_x_metric scatter_y_metric : string) : Exn ScatterView :=
  if has_column df_filtered scatter_x_metric
     && has_column df_filtered scatter_y_metric then
    xs <- getitem df_filtered scatter_x_metric ;;
    ys <- getitem df_filtered scatter_y_metric ;;
    color <- (if String.eqb selected_country "All"
              then year <- getitem df_filtered "Year" ;; Ok (Some (cells year))
              else Ok None) ;;
    Ok (ScatterChart (combine (cells xs) (cells ys)) color)
  else Ok ScatterWarning.

(** ** Ranking (line 215) *)

Definition top_10_co2 (country_stats : list CountryStat) : list CountryStat :=
  nlargest 10 country_stats.

(** ** The expected input *)

(** The ten columns of the data model, by position: Year, Country (strings)
    and eight numeric indicators.  Any of the numeric columns may have
    missing cells. *)
Definition expected_schema (df : DataFrame) : bool :=
  match map snd df with
  | [NumCol _; ObjCol _; NumCol _; NumCol _; NumCol _; NumCol _; NumCol _;
     NumCol _; NumCol _; NumCol _] => true
  | _ => false
  end.

(** The row of [country_stats] for the group [k], over numeric columns. *)
Definition stat_row (key : Series)
    (temp co2 sea rain pop renew events forest : list (option Q))
    (k : Scalar) : CountryStat :=
  let m := key_mask key k in
  {| Country := k;
     Avg_Temp := mean (take_rows m temp);
     Avg_CO2_Emissions := mean (take_rows m co2);
     Avg_Sea_Level_Rise := mean (take_rows m sea);
     Avg_Rainfall := mean (take_rows m rain);
     Avg_Renewable_Energy := mean (take_rows m renew);
     Total_Extreme_Weather_Events := Num (sum (take_rows m events));
     Avg_Forest_Area := mean (take_rows m forest);
     Avg_Population := mean (take_rows m pop) |}.


(** A column has a value when not all of its cells are missing. *)
Definition has_value (xs : list (option Q)) : bool :=
  match dropna xs with
  | [] => false
  | _ :: _ => true
  end.

Definition count_missing {A : Type} (xs : list (option A)) : nat :=
  length (filter (fun c => match c with None => true | Some _ => false end) xs).


(** The means of one column per year, as the trend chart plots them. *)
Definition year_means (year : Series) (xs : list (option Q)) : list (option Q) :=
  map (fun k => mean (take_rows (key_mask year k) xs)) (group_keys year).





(** [metric_options], the columns the sidebar offers (line 85). *)
Definition metric_options : list string :=
  ["Avg_Temperature_¬∞C"; "CO2_Emissions_Tons/Capita"; "Sea_Level_Rise_mm";
   "Rainfall_mm"; "Population"; "Renewable_Energy_%";
   "Extreme_Weather_Events"; "Forest_Area_%"].

(** What the imputation loop does to one labelled column. *)
Definition impute_one (c : string * Series) : string * Series :=
  if String.eqb (fst c) "Year" then c
  else match snd c with
       | NumCol xs => (fst c, NumCol (fill xs))
       | ObjCol _ => c
       end.

(** ** Sample files *)

(** Two countries over two years; one temperature and one CO2 reading
    are missing. *)
Definition sample_csv : DataFrame :=
  [("Year", NumCol [Some 2000; Some 2001; Some 2000; Some 2001]);
   ("Country", ObjCol [Some "A"; Some "A"; Some "B"; Some "B"]);
   ("Avg Temperature", NumCol [Some 14; None; Some 21; Some 23]);
   ("CO2 Emissions", NumCol [Some 4; Some 6; Some 10; None]);
   ("Sea Level Rise", NumCol [Some 2; Some 3; Some 2; Some 3]);
   ("Rainfall", NumCol [Some 900; Some 1100; Some 300; Some 500]);
   ("Population", NumCol [Some 1000; Some 1010; Some 5000; Some 5100]);
   ("Renewable Energy", NumCol [Some 10; Some 12; Some 30; Some 31]);
   ("Extreme Weather Events", NumCol [Some 1; Some 2; Some 3; Some 4]);
   ("Forest Area", NumCol [Some 40; Some 39; Some 20; Some 20])].

(** [df[label] = s] at a position, to derive variants of a file. *)
Definition with_column (i : nat) (s : Series) (df : DataFrame) : DataFrame :=
  firstn i df ++
  match skipn i df with
  | [] => []
  | (h, _) :: t => (h, s) :: t
  end.




(** The same file without its last column. *)
Definition nine_column_csv : DataFrame := removelast sample_csv.

(** The same file with the rainfall and sea-level columns exchanged. *)
Definition swapped_csv : DataFrame :=
  [("Year", NumCol [Some 2000; Some 2001; Some 2000; Some 2001]);
   ("Country", ObjCol [Some "A"; Some "A"; Some "B"; Some "B"]);
   ("Avg Temperature", NumCol [Some 14; None; Some 21; Some 23]);
   ("CO2 Emissions", NumCol [Some 4; Some 6; Some 10; None]);
   ("Rainfall", NumCol [Some 900; Some 1100; Some 300; Some 500]);
   ("Sea Level Rise", NumCol [Some 2; Some 3; Some 2; Some 3]);
   ("Population", NumCol [Some 1000; Some 1010; Some 5000; Some 5100]);
   ("Renewable Energy", NumCol [Some 10; Some 12; Some 30; Some 31]);
   ("Extreme Weather Events", NumCol [Some 1; Some 2; Some 3; Some 4]);
   ("Forest Area", NumCol [Some 40; Some 39; Some 20; Some 20])].


(** The observation table a file loads to ([[]] when loading halts). *)
Definition loaded_table (file : CsvFile) : DataFrame :=
  match load_data file with
  | Loaded df _ => df
  | Halted _ => []
  end.

(** ** Sidebar and page (lines 82-98 and the order of the script) *)

Definition cell_eqb (a b : option Scalar) : bool :=
  match a, b with
  | None, None => true
  | Some x, Some y => scalar_eqb x y
  | _, _ => false
  end.

(** [Series.unique()]: the distinct cells in order of first appearance;
    NaN counts as one value. *)
Fixpoint unique_cells (l : list (option Scalar)) : list (option Scalar) :=
  match l with
  | [] => []
  | x :: t => x :: filter (fun y => negb (cell_eqb x y)) (unique_cells t)
  end.

Definition is_str (c : option Scalar) : bool :=
  match c with
  | Some (Str _) => true
  | _ => false
  end.

Definition is_nan (c : option Scalar) : bool :=
  match c with
  | None => true
  | Some _ => false
  end.

(** [default_metrics] (line 88) and the two preselected axes (lines 97-98). *)
Definition default_metrics : list string :=
  ["Avg_Temperature_¬∞C"; "CO2_Emissions_Tons/Capita"; "Sea_Level_Rise_mm"].

(** What the four widgets of the sidebar return. *)
Record Controls : Type := {
  selected_country : string;
  selected_metrics_time_series : list string;
  scatter_x_metric : string;
  scatter_y_metric : string
}.

(** The widgets left untouched: the first country option, the default
    metrics, options 1 and 0 for the axes. *)
Definition default_controls : Controls :=
  {| selected_country := "All";
     selected_metrics_time_series := default_metrics;
     scatter_x_metric := nth 1 metric_options "";
     scatter_y_metric := nth 0 metric_options "" |}.


(** What the page computes for its charts. *)
Record Views : Type := {
  country_options : list (option Scalar);
  trend : TrendView;
  heatmap : CorrView;
  scatter : ScatterView;
  ranking : list CountryStat
}.

Section Page.
(** The square root of the correlation, and the order Python's [sorted]
    leaves a list of floats in when a NaN is among them, which the model
    leaves open. *)
Variable sqrt : Q -> Q.
Variable nan_order : list (option Scalar) -> list (option Scalar).

(** Python's [sorted] on the cells of a column.  Comparing a string with
    a float raises [TypeError], and NaN is a float; a list of at most one
    element is never compared. *)
Definition sorted (l : list (option Scalar)) : Exn (list (option Scalar)) :=
  match l with
  | [] | [_] => Ok l
  | _ =>
      if existsb is_str l && existsb (fun c => negb (is_str c)) l
      then Raise TypeError
      else if existsb is_nan l then Ok (nan_order l)
      else Ok (map Some (sort_by scalar_leb (dropna l)))
  end.

(** [country_list = ["All"] + sorted(df['Country'].unique().tolist())] *)
Definition country_list (df : DataFrame) : Exn (list (option Scalar)) :=
  key <- getitem df "Country" ;;
  countries <- sorted (unique_cells (cells key)) ;;
  Ok (Some (Str "All") :: countries).

(** The computations of the script after [load_data], in its order: the
    country list, the filter step, the three charts of the filtered table
    and the ranking.  The download buttons (lines 150-159, 181-189) and
    the static text are not part of it. *)
Definition render_views (ui : Controls) (df : DataFrame)
    (country_stats : list CountryStat) : Exn Views :=
  options <- country_list df ;;
  df_filtered <- filter_country df (selected_country ui) ;;
  t <- trend_view df_filtered (selected_country ui)
                  (selected_metrics_time_series ui) ;;
  c <- corr_view sqrt df_filtered (selected_country ui)
                 (selected_metrics_time_series ui) ;;
  s <- scatter_view df_filtered (selected_country ui)
                    (scatter_x_metric ui) (scatter_y_metric ui) ;;
  Ok {| country_options := options;
        trend := t;
        heatmap := c;
        scatter := s;
        ranking := top_10_co2 country_stats |}.
End Page.

(** How many rows of a column of countries belong to a country. *)
Definition count_rows (xs : list (option string)) (c : string) : nat :=
  length (filter (fun x => match x with
                           | Some s => String.eqb s c
                           | None => false
                           end) xs).






(** A file with a row whose country is missing. *)
Definition missing_country_csv : DataFrame :=
  with_column 1 (ObjCol [Some "A"; None; Some "B"; Some "B"]) sample_csv.

(** * Properties *)

(** ** The error monad *)

Lemma mapM_Ok {A B : Type} (f : A -> B) (l : list A) :
  mapM (fun a => Ok (f a)) l = Ok (map f l).
Proof.
  induction l as [|a t IH]; simpl; [reflexivity|].
  now rewrite IH.
Qed.


(** ** The loader on the expected input *)

Lemma expected_schema_inv (df : DataFrame) :
  expected_schema df = true ->
  exists h0 h1 h2 h3 h4 h5 h6 h7 h8 h9 year country temp co2 sea rain pop
         renew events forest,
    df = [(h0, NumCol year); (h1, ObjCol country); (h2, NumCol temp);
          (h3, NumCol co2); (h4, NumCol sea); (h5, NumCol rain);
          (h6, NumCol pop); (h7, NumCol renew); (h8, NumCol events);
          (h9, NumCol forest)].
Proof.
  unfold expected_schema.
  do 10 (destruct df as [|[? [?|?]] df]; simpl; try discriminate).
  destruct df; simpl; try discriminate.
  intros _. repeat eexists.
Qed.

Lemma load_data_expected h0 h1 h2 h3 h4 h5 h6 h7 h8 h9
    year country temp co2 sea rain pop renew events forest :
  load_data (Content
    [(h0, NumCol year); (h1, ObjCol country); (h2, NumCol temp);
     (h3, NumCol co2); (h4, NumCol sea); (h5, NumCol rain);
     (h6, NumCol pop); (h7, NumCol renew); (h8, NumCol events);
     (h9, NumCol forest)])
  = Loaded
      [("Year", NumCol year); ("Country", ObjCol country);
       ("Avg_Temperature_¬∞C", NumCol (fill temp));
       ("CO2_Emissions_Tons/Capita", NumCol (fill co2));
       ("Sea_Level_Rise_mm", NumCol (fill sea));
       ("Rainfall_mm", NumCol (fill rain));
       ("Population", NumCol (fill pop));
       ("Renewable_Energy_%", NumCol (fill renew));
       ("Extreme_Weather_Events", NumCol (fill events));
       ("Forest_Area_%", NumCol (fill forest))]
      (sort_values_desc
         (map (stat_row (ObjCol country) (fill temp) (fill co2) (fill sea)
                        (fill rain) (fill pop) (fill renew) (fill events)
                        (fill forest))
              (group_keys (ObjCol country)))).
Proof.
  unfold load_data, load_data_try.
  change (read_csv (Content ?d)) with (Ok d).
  cbn -[median fillna group_keys key_mask mean sum sort_values_desc mapM].
  fold (fill temp) (fill co2) (fill sea) (fill rain) (fill pop) (fill renew)
       (fill events) (fill forest).
  unfold groupby_country_agg.
  cbn -[median fillna group_keys key_mask mean sum sort_values_desc mapM fill].
  rewrite (mapM_Ok (stat_row (ObjCol country) (fill temp) (fill co2) (fill sea)
                        (fill rain) (fill pop) (fill renew) (fill events)
                        (fill forest))).
  reflexivity.
Qed.

(** ** Sorting *)

Section SortingFacts.
Context {A : Type} (before : A -> A -> bool).
Hypothesis before_total : forall a b, before a b = true \/ before b a = true.

Let R (a b : A) : Prop := before a b = true.

Lemma insert_by_perm (x : A) (l : list A) :
  Permutation (insert_by before x l) (x :: l).
Proof.
  induction l as [|y t IH]; simpl; [reflexivity|].
  destruct (before x y); [reflexivity|].
  rewrite IH. apply perm_swap.
Qed.

Lemma sort_by_perm (l : list A) : Permutation (sort_by before l) l.
Proof.
  induction l as [|x t IH]; simpl; [reflexivity|].
  rewrite insert_by_perm. now constructor.
Qed.

Lemma insert_by_sorted (x : A) (l : list A) :
  Sorted R l -> Sorted R (insert_by before x l).
Proof.
  induction l as [|y t IH]; intros Hs; simpl.
  - repeat constructor.
  - destruct (before x y) eqn:Hxy.
    + constructor; [assumption|]. now constructor.
    + apply Sorted_inv in Hs as [Hs Hhd].
      constructor; [now apply IH|].
      assert (Hyx : R y x)
        by (destruct (before_total x y) as [H|H]; [congruence|exact H]).
      destruct t as [|z t]; simpl.
      * now constructor.
      * destruct (before x z); constructor; [exact Hyx|].
        now inversion Hhd.
Qed.

Lemma sort_by_sorted (l : list A) : Sorted R (sort_by before l).
Proof.
  induction l as [|x t IH]; simpl; [constructor|].
  now apply insert_by_sorted.
Qed.


End SortingFacts.



Lemma sort_values_desc_perm (stats : list CountryStat) :
  Permutation (sort_values_desc stats) stats.
Proof. apply sort_by_perm. Qed.



(** ** Group keys *)

Lemma scalar_eqb_refl (a : Scalar) : scalar_eqb a a = true.
Proof.
  destruct a as [q|s]; simpl.
  - apply Qeq_bool_iff. reflexivity.
  - apply String.eqb_refl.
Qed.

Lemma scalar_eqb_trans (a b c : Scalar) :
  scalar_eqb a b = true -> scalar_eqb b c = true -> scalar_eqb a c = true.
Proof.
  destruct a, b, c; simpl; try discriminate.
  - rewrite !Qeq_bool_iff. intros H1 H2. now rewrite H1.
  - rewrite !String.eqb_eq. congruence.
Qed.

Lemma scalar_eqb_Str (s : string) (k : Scalar) :
  scalar_eqb (Str s) k = true <-> k = Str s.
Proof.
  destruct k as [q|s']; simpl; split; try discriminate.
  - rewrite String.eqb_eq. congruence.
  - intros [= ->]. apply String.eqb_refl.
Qed.

Lemma unique_incl (l : list Scalar) (k : Scalar) :
  In k (unique l) -> In k l.
Proof.
  induction l as [|x t IH]; simpl; [tauto|].
  intros [H|H]; [now left|].
  apply filter_In in H as [H _]. right. now apply IH.
Qed.

Lemma unique_complete (l : list Scalar) (k : Scalar) :
  In k l -> exists k', In k' (unique l) /\ scalar_eqb k' k = true.
Proof.
  induction l as [|x t IH]; simpl; [tauto|].
  intros [->|H].
  - exists k. split; [now left|apply scalar_eqb_refl].
  - destruct (IH H) as (k' & Hin & Heq).
    destruct (scalar_eqb x k') eqn:Hx.
    + exists x. split; [now left|]. now apply scalar_eqb_trans with k'.
    + exists k'. split; [|exact Heq].
      right. apply filter_In. split; [exact Hin|]. now rewrite Hx.
Qed.

Lemma unique_NoDup (l : list Scalar) : NoDup (unique l).
Proof.
  induction l as [|x t IH]; simpl; constructor.
  - intros H. apply filter_In in H as [_ H].
    now rewrite scalar_eqb_refl in H.
  - now apply NoDup_filter.
Qed.

Lemma dropna_map {A B : Type} (f : A -> B) (xs : list (option A)) :
  dropna (map (option_map f) xs) = map f (dropna xs).
Proof.
  induction xs as [|[x|] t IH]; simpl; [reflexivity| |assumption].
  now rewrite IH.
Qed.

Lemma dropna_In {A : Type} (xs : list (option A)) (x : A) :
  In x (dropna xs) <-> In (Some x) xs.
Proof.
  induction xs as [|[y|] t IH]; simpl; [tauto| |].
  - rewrite IH. split; (intros [H|H]; [left; congruence|now right]).
  - rewrite IH. split; [now right|]. intros [H|H]; [discriminate|exact H].
Qed.

Lemma group_keys_perm (key : Series) :
  Permutation (group_keys key) (unique (dropna (cells key))).
Proof. apply sort_by_perm. Qed.

Lemma group_keys_NoDup (key : Series) : NoDup (group_keys key).
Proof.
  apply (Permutation_NoDup (l := unique (dropna (cells key)))).
  - symmetry. apply group_keys_perm.
  - apply unique_NoDup.
Qed.

(** The groups of a column of strings are its distinct non-missing
    values. *)
Lemma group_keys_ObjCol (xs : list (option string)) (k : Scalar) :
  In k (group_keys (ObjCol xs)) <-> exists s, k = Str s /\ In (Some s) xs.
Proof.
  rewrite (Permutation_in' (eq_refl k) (group_keys_perm (ObjCol xs))).
  simpl. rewrite dropna_map. split.
  - intros H. apply unique_incl in H. apply in_map_iff in H as (s & <- & H).
    exists s. split; [reflexivity|]. now apply dropna_In.
  - intros (s & -> & H).
    destruct (unique_complete (map Str (dropna xs)) (Str s)) as (k' & Hin & Heq).
    { apply in_map. now apply dropna_In. }
    assert (Hk : In k' (map Str (dropna xs))) by now apply unique_incl.
    apply in_map_iff in Hk as (s' & <- & _).
    apply scalar_eqb_Str in Heq. now rewrite Heq.
Qed.


(** ** Imputation *)

Lemma sort_asc_length (l : list Q) : length (sort_asc l) = length l.
Proof. apply Permutation_length, sort_by_perm. Qed.

Lemma median_has_value (xs : list (option Q)) :
  has_value xs = true -> exists m, median xs = Some m.
Proof.
  unfold has_value, median. rewrite sort_asc_length.
  destruct (dropna xs) as [|x t]; [discriminate|]. intros _.
  cbn [length Nat.eqb].
  destruct (Nat.odd (S (length t))); eexists; reflexivity.
Qed.

Lemma median_no_value (xs : list (option Q)) :
  has_value xs = false -> median xs = None.
Proof.
  unfold has_value, median. rewrite sort_asc_length.
  destruct (dropna xs) as [|x t]; [reflexivity|discriminate].
Qed.

(** Filling keeps every value and puts the median in every gap. *)
Lemma fill_spec (xs : list (option Q)) :
  fill xs = map (fun c => match c with None => median xs | Some _ => c end) xs.
Proof.
  unfold fill, fillna. destruct (median xs) as [m|]; [reflexivity|].
  induction xs as [|[x|] t IH]; simpl; [reflexivity| |]; now rewrite <- IH.
Qed.


Lemma fill_no_missing (xs : list (option Q)) :
  has_value xs = true -> count_missing (fill xs) = 0%nat.
Proof.
  intros H. destruct (median_has_value xs H) as [m Hm].
  rewrite fill_spec, Hm. generalize xs at 1. intros l.
  induction l as [|[x|] t IH]; simpl; auto.
Qed.

Lemma fill_no_value (xs : list (option Q)) :
  has_value xs = false -> fill xs = xs.
Proof.
  intros H. unfold fill. now rewrite (median_no_value xs H).
Qed.

(** A column without a gap is left as it is. *)
Lemma fill_complete (xs : list (option Q)) :
  count_missing xs = 0%nat -> fill xs = xs.
Proof.
  intros H. rewrite fill_spec. generalize (median xs). intros v.
  induction xs as [|[x|] t IH]; simpl in *; [reflexivity| |discriminate].
  f_equal. now apply IH.
Qed.

(** ** The median is a middle value *)


Lemma Qle_bool_total (a b : Q) : Qle_bool a b = true \/ Qle_bool b a = true.
Proof.
  destruct (Qlt_le_dec a b) as [H|H].
  - left. apply Qle_bool_iff. now apply Qlt_le_weak.
  - right. now apply Qle_bool_iff.
Qed.









(** ** Renaming and imputation on any frame *)

Lemma columns_combine (names : list string) (cols : list Series) :
  length names = length cols -> columns (combine names cols) = names.
Proof.
  unfold columns. revert cols.
  induction names as [|n t IH]; intros [|c cols] H; simpl in *;
    try discriminate; [reflexivity|].
  f_equal. apply IH. now injection H.
Qed.

Lemma data_combine (names : list string) (cols : list Series) :
  length names = length cols -> map snd (combine names cols) = cols.
Proof.
  revert cols.
  induction names as [|n t IH]; intros [|c cols] H; simpl in *;
    try discriminate; [reflexivity|].
  f_equal. apply IH. now injection H.
Qed.

Lemma set_columns_length (df df' : DataFrame) (names : list string) :
  set_columns df names = Ok df' -> length df = length names.
Proof.
  unfold set_columns. destruct (Nat.eqb_spec (length names) (length df));
    [congruence|discriminate].
Qed.

Lemma load_data_failure_free (file : CsvFile) (df : DataFrame)
    (stats : list CountryStat) :
  load_data file = Loaded df stats -> load_data_try file = Ok (df, stats).
Proof.
  unfold load_data. destruct (load_data_try file) as [[d s0]|e].
  - now intros [= -> ->].
  - destruct e; discriminate.
Qed.

Lemma column_names_NoDup : NoDup column_names.
Proof.
  unfold column_names.
  repeat (constructor; [simpl; intuition discriminate|]). constructor.
Qed.

Lemma get_col_In (df : DataFrame) (col : string) (s : Series) :
  get_col df col = Some s -> In (col, s) df.
Proof.
  induction df as [|[l s0] t IH]; simpl; [discriminate|].
  destruct (String.eqb_spec l col) as [->|_].
  - intros [= ->]. now left.
  - intros H. right. now apply IH.
Qed.

Lemma set_col_map (df : DataFrame) (col : string) (s0 s : Series) :
  NoDup (columns df) -> get_col df col = Some s0 ->
  set_col df col s
  = map (fun c => if String.eqb (fst c) col then (fst c, s) else c) df.
Proof.
  unfold columns.
  induction df as [|[l s1] t IH]; simpl; [discriminate|].
  intros Hnd Hget. apply NoDup_cons_iff in Hnd as [Hl Hnd].
  destruct (String.eqb_spec l col) as [->|Hne].
  - f_equal. clear IH Hget. induction t as [|[l' s'] t IH]; [reflexivity|].
    simpl in *. apply NoDup_cons_iff in Hnd as [_ Hnd].
    destruct (String.eqb_spec l' col) as [->|_]; [tauto|].
    f_equal. apply IH; tauto.
  - f_equal. now apply IH.
Qed.

Lemma In_get_col (df : DataFrame) (col : string) (s : Series) :
  NoDup (columns df) -> In (col, s) df -> get_col df col = Some s.
Proof.
  unfold columns. induction df as [|[l s0] t IH]; simpl; [tauto|].
  intros Hnd Hin. apply NoDup_cons_iff in Hnd as [Hl Hnd].
  destruct Hin as [[= -> ->]|Hin]; [now rewrite String.eqb_refl|].
  destruct (String.eqb_spec l col) as [->|_]; [|now apply IH].
  exfalso. apply Hl. now apply (in_map fst) in Hin.
Qed.

(** One pass of the loop body changes the column of that label, and only
    that one. *)
Lemma impute_col_map (df : DataFrame) (col : string) :
  NoDup (columns df) ->
  impute_col df col
  = map (fun c => if String.eqb (fst c) col then impute_one c else c) df.
Proof.
  intros Hnd. unfold impute_col.
  assert (Hid : forall f : string * Series -> string * Series,
            (forall s, In (col, s) df -> f (col, s) = (col, s)) ->
            df = map (fun c => if String.eqb (fst c) col then f c else c) df).
  { intros f Hf. rewrite <- (map_id df) at 1. apply map_ext_in.
    intros [l s] Hc. cbn [fst].
    destruct (String.eqb_spec l col) as [->|_]; [|reflexivity].
    symmetry. now apply Hf. }
  destruct (String.eqb_spec col "Year") as [->|Hne]; cbn [negb].
  - apply Hid. intros s _. reflexivity.
  - destruct (get_col df col) as [[xs|xs]|] eqn:Hget.
    + rewrite (set_col_map df col (NumCol xs)) by assumption.
      apply map_ext_in. intros [l s] Hin. cbn [fst].
      destruct (String.eqb_spec l col) as [->|_]; [|reflexivity].
      rewrite (In_get_col df col s Hnd Hin) in Hget. injection Hget as ->.
      unfold impute_one. cbn [fst snd].
      destruct (String.eqb_spec col "Year") as [|_]; [contradiction|reflexivity].
    + apply Hid. intros s Hin.
      rewrite (In_get_col df col s Hnd Hin) in Hget. injection Hget as ->.
      unfold impute_one. cbn [fst snd]. now destruct (String.eqb col "Year").
    + apply Hid. intros s Hin.
      rewrite (In_get_col df col s Hnd Hin) in Hget. discriminate.
Qed.

Lemma columns_map_impute (f : string * Series -> string * Series) (df : DataFrame) :
  (forall c, fst (f c) = fst c) -> columns (map f df) = columns df.
Proof.
  intros Hf. unfold columns. rewrite map_map. apply map_ext. exact Hf.
Qed.

Lemma impute_one_fst (c : string * Series) : fst (impute_one c) = fst c.
Proof.
  unfold impute_one. destruct c as [l [xs|xs]]; cbn [fst snd];
    now destruct (String.eqb l "Year").
Qed.

Lemma impute_loop_map (cols : list string) (df : DataFrame) :
  NoDup (columns df) -> NoDup cols ->
  fold_left impute_col cols df
  = map (fun c => if existsb (String.eqb (fst c)) cols then impute_one c else c) df.
Proof.
  revert df. induction cols as [|col t IH]; intros df Hnd Hcols; simpl.
  - symmetry. apply map_id.
  - apply NoDup_cons_iff in Hcols as [Hcol Ht].
    rewrite (impute_col_map df col Hnd), IH; [|rewrite columns_map_impute; [exact Hnd|] |exact Ht].
    + rewrite map_map. apply map_ext. intros [l s]. cbn [fst].
      destruct (String.eqb_spec l col) as [->|Hne]; [|reflexivity].
      rewrite impute_one_fst. cbn [fst orb].
      destruct (existsb (String.eqb col) t) eqn:E; [|reflexivity].
      apply existsb_exists in E as (x & Hx & Hxe).
      apply String.eqb_eq in Hxe. subst x. contradiction.
    + intros c. destruct (String.eqb (fst c) col); [apply impute_one_fst|reflexivity].
Qed.

(** The loop as a whole: every numeric column except Year is filled, each
    with its own median; nothing else is touched. *)
Lemma impute_map (df : DataFrame) :
  NoDup (columns df) -> impute df = map impute_one df.
Proof.
  intros Hnd. unfold impute. rewrite impute_loop_map; [|exact Hnd|].
  - apply map_ext_in. intros [l s] Hin. cbn [fst].
    destruct (existsb (String.eqb l) (columns (select_dtypes_number df))) eqn:E;
      [reflexivity|].
    unfold impute_one. cbn [fst snd].
    destruct (String.eqb l "Year"); [reflexivity|].
    destruct s as [xs|xs]; [|reflexivity].
    exfalso. apply Bool.not_true_iff_false in E. apply E.
    apply existsb_exists. exists l. split; [|apply String.eqb_refl].
    unfold columns, select_dtypes_number.
    apply (in_map fst (filter _ df) (l, NumCol xs)), filter_In. now split.
  - unfold columns, select_dtypes_number in *.
    clear -Hnd. induction df as [|[l s] t IH]; [constructor|].
    simpl in *. apply NoDup_cons_iff in Hnd as [Hl Hnd].
    destruct (is_number s); [|now apply IH].
    simpl. constructor; [|now apply IH].
    intros Hin. apply Hl. apply in_map_iff in Hin as (c & <- & Hc).
    apply filter_In in Hc as [Hc _]. now apply in_map.
Qed.

(** What a successful load returns, for a file of any content: the
    file's columns under the ten names, imputed. *)
Lemma load_data_loaded (df0 df : DataFrame) (stats : list CountryStat) :
  load_data (Content df0) = Loaded df stats ->
  length df0 = 10%nat /\
  df = map impute_one (combine column_names (map snd df0)) /\
  columns df = column_names.
Proof.
  intros H. apply load_data_failure_free in H.
  unfold load_data_try in H. cbn [read_csv bind] in H.
  destruct (set_columns df0 column_names) as [df1|e] eqn:Hset; [|discriminate].
  pose proof (set_columns_length _ _ _ Hset) as Hlen.
  set (d := combine column_names (map snd df0)).
  assert (Hdf1 : df1 = d).
  { unfold set_columns in Hset.
    destruct (Nat.eqb (length column_names) (length df0)); [|discriminate].
    now injection Hset as <-. }
  assert (Hcols : columns d = column_names)
    by (apply columns_combine; now rewrite length_map).
  assert (Hnd : NoDup (columns d))
    by (rewrite Hcols; apply column_names_NoDup).
  rewrite Hdf1 in H. cbn [bind] in H. rewrite (impute_map d Hnd) in H.
  destruct (groupby_country_agg (map impute_one d)) as [st|e]; [|discriminate].
  cbn [bind] in H. injection H as <- _.
  split; [exact Hlen|]. split; [reflexivity|].
  rewrite columns_map_impute; [exact Hcols|apply impute_one_fst].
Qed.

Lemma nth_error_combine {A B : Type} (l : list A) (l' : list B) (i : nat)
    (a : A) (b : B) :
  nth_error l i = Some a -> nth_error l' i = Some b ->
  nth_error (combine l l') i = Some (a, b).
Proof.
  revert l l'. induction i as [|i IH]; intros [|x l] [|y l']; simpl;
    try discriminate.
  - now intros [= ->] [= ->].
  - apply IH.
Qed.

Lemma load_data_expected_loads (df0 : DataFrame) :
  expected_schema df0 = true ->
  exists df stats, load_data (Content df0) = Loaded df stats.
Proof.
  intros Hs.
  destruct (expected_schema_inv df0 Hs)
    as (h0 & h1 & h2 & h3 & h4 & h5 & h6 & h7 & h8 & h9 & year & country & temp
        & co2 & sea & rain & pop & renew & events & forest & ->).
  rewrite load_data_expected. do 2 eexists. reflexivity.
Qed.












(** ** The country summary *)
















(** ** Renaming by position *)

(** C5 (as amended).  Renaming is by position.  A file with ten columns
    is relabelled whatever its header says: the Nth column takes the Nth
    of the ten names and keeps its cells, and what the loader returns
    depends on the cells only, so that columns in another order go
    unnoticed.  A file with another number of columns is not relabelled:
    the assignment raises and the loader halts with the error message. *)
Theorem rename_is_positional (df0 : DataFrame) :
  (length df0 = 10%nat ->
   exists df1,
     set_columns df0 column_names = Ok df1 /\
     columns df1 = column_names /\
     map snd df1 = map snd df0 /\
     forall df0', map snd df0' = map snd df0 ->
                  load_data (Content df0') = load_data (Content df0)) /\
  (length df0 <> 10%nat ->
   set_columns df0 column_names = Raise ValueError /\
   load_data (Content df0) = Halted (PreprocessingMessage ValueError)).
Proof.
  split; intros Hlen.
  - assert (Hset : forall d, map snd d = map snd df0 ->
                             set_columns d column_names
                             = Ok (combine column_names (map snd df0))).
    { intros d Hd. unfold set_columns.
      replace (length d) with (length (map snd d)) by apply length_map.
      rewrite Hd, length_map, Hlen. reflexivity. }
    exists (combine column_names (map snd df0)).
    split; [now apply Hset|].
    split; [apply columns_combine; now rewrite length_map|].
    split; [apply data_combine; now rewrite length_map|].
    intros df0' Hd. unfold load_data, load_data_try. cbn [read_csv bind].
    now rewrite (Hset df0' Hd), (Hset df0 eq_refl).
  - assert (Hset : set_columns df0 column_names = Raise ValueError).
    { unfold set_columns.
      destruct (Nat.eqb_spec (length column_names) (length df0)) as [E|E];
        [|reflexivity].
      exfalso. apply Hlen. now rewrite <- E. }
    split; [exact Hset|].
    unfold load_data, load_data_try. cbn [read_csv bind]. now rewrite Hset.
Qed.

Lemma rename_is_positional_witness :
  load_data (Content swapped_csv)
  = load_data (Content
      (combine ["a"; "b"; "c"; "d"; "e"; "f"; "g"; "h"; "i"; "j"]
               (map snd swapped_csv))) /\
  load_data (Content nine_column_csv) = Halted (PreprocessingMessage ValueError).
Proof.
  split.
  - destruct (proj1 (rename_is_positional
                       (combine ["a"; "b"; "c"; "d"; "e"; "f"; "g"; "h"; "i"; "j"]
                                (map snd swapped_csv))) eq_refl)
      as (df1 & _ & _ & _ & Hsame).
    apply (Hsame swapped_csv). reflexivity.
  - apply (proj2 (rename_is_positional nine_column_csv)).
    simpl. lia.
Defined.

(** A file with nine columns produces no table: the loader halts. *)
Lemma nine_columns_halt :
  length nine_column_csv <> 10%nat /\
  load_data (Content nine_column_csv) = Halted (PreprocessingMessage ValueError).
Proof. split; [simpl; lia|reflexivity]. Qed.

(** The swapped file loads, and the column labelled as sea-level rise
    holds its rainfall readings. *)
Example swapped_csv_mislabelled :
  get_col swapped_csv "Rainfall" = Some (NumCol [Some 900; Some 1100; Some 300; Some 500]) /\
  get_col (loaded_table (Content swapped_csv)) "Sea_Level_Rise_mm"
  = Some (NumCol [Some 900; Some 1100; Some 300; Some 500]).
Proof. split; reflexivity. Qed.

(** ** The filter step *)

Lemma take_rows_mask_self (key : Series) (k : Scalar) :
  Forall (fun c => exists k', c = Some k' /\ scalar_eqb k' k = true)
         (take_rows (key_mask key k) (cells key)).
Proof.
  unfold key_mask. induction (cells key) as [|c t IH]; simpl; [constructor|].
  destruct c as [k'|]; [|exact IH].
  destruct (scalar_eqb k' k) eqn:E; [|exact IH].
  constructor; [|exact IH]. now exists k'.
Qed.

Lemma cells_series_take (mask : list bool) (s : Series) :
  cells (series_take mask s) = take_rows mask (cells s).
Proof.
  destruct s as [xs|xs]; simpl.
  - revert xs. induction mask as [|b m IH]; intros [|x t]; simpl; try reflexivity.
    destruct b; simpl; now rewrite IH.
  - revert xs. induction mask as [|b m IH]; intros [|x t]; simpl; try reflexivity.
    destruct b; simpl; now rewrite IH.
Qed.

Lemma get_col_map (f : Series -> Series) (df : DataFrame) (col : string) :
  get_col (map (fun c => (fst c, f (snd c))) df) col
  = option_map f (get_col df col).
Proof.
  induction df as [|[l s] t IH]; simpl; [reflexivity|].
  now destruct (String.eqb l col).
Qed.

Lemma scalar_eqb_Str_r (k : Scalar) (s : string) :
  scalar_eqb k (Str s) = true -> k = Str s.
Proof.
  destruct k as [q|s']; simpl; [discriminate|].
  rewrite String.eqb_eq. congruence.
Qed.

(** C6.  With a country other than "All" selected, the filtered table
    holds only rows whose Country is the selected one; with "All"
    selected it is the observation table itself, with as many rows. *)
Theorem filter_country_selects (df : DataFrame) (key : Series)
    (selected_country : string) :
  get_col df "Country" = Some key ->
  exists df_filtered,
    filter_country df selected_country = Ok df_filtered /\
    (selected_country <> "All" ->
     exists key',
       get_col df_filtered "Country" = Some key' /\
       Forall (fun c => c = Some (Str selected_country)) (cells key')) /\
    (selected_country = "All" ->
     df_filtered = df /\ row_count df_filtered = row_count df).
Proof.
  intros Hkey. unfold filter_country, getitem. rewrite Hkey.
  destruct (String.eqb_spec selected_country "All") as [->|Hne]; simpl.
  - exists df. split; [reflexivity|]. split; [congruence|]. now split.
  - eexists. split; [reflexivity|]. split; [|congruence].
    intros _. exists (series_take (key_mask key (Str selected_country)) key).
    split.
    + now rewrite (get_col_map (series_take _)), Hkey.
    + rewrite cells_series_take.
      eapply Forall_impl; [|apply take_rows_mask_self].
      intros c (k' & -> & Hk). f_equal. now apply scalar_eqb_Str_r.
Qed.

Lemma filter_country_selects_witness :
  (exists df_filtered,
     filter_country (loaded_table (Content sample_csv)) "B" = Ok df_filtered /\
     get_col df_filtered "Country" = Some (ObjCol [Some "B"; Some "B"]) /\
     row_count df_filtered = 2%nat) /\
  (exists df_filtered,
     filter_country (loaded_table (Content sample_csv)) "All" = Ok df_filtered /\
     row_count df_filtered = row_count (loaded_table (Content sample_csv))).
Proof.
  split.
  - destruct (filter_country_selects (loaded_table (Content sample_csv))
                (ObjCol [Some "A"; Some "A"; Some "B"; Some "B"]) "B" eq_refl)
      as (df_filtered & Hf & Hsel & _).
    destruct Hsel as (key' & Hk & _); [discriminate|].
    exists df_filtered. split; [exact Hf|].
    vm_compute in Hf. injection Hf as <-. split; reflexivity.
  - destruct (filter_country_selects (loaded_table (Content sample_csv))
                (ObjCol [Some "A"; Some "A"; Some "B"; Some "B"]) "All" eq_refl)
      as (df_filtered & Hf & _ & Hall).
    exists df_filtered. split; [exact Hf|]. now apply Hall.
Defined.

(** ** Failures in the loader *)

(** C7.  A missing file makes the loader show the not-found message and
    halt; any other exception raised while loading or transforming makes
    it show the generic message and halt.  A halted loader returns no
    table, and nothing of the rest of the script runs. *)
Theorem load_data_failure_halts :
  load_data Absent = Halted NotFoundMessage /\
  (forall file e,
     load_data_try file = Raise e ->
     load_data file
     = Halted (match e with
               | FileNotFoundError => NotFoundMessage
               | _ => PreprocessingMessage e
               end)) /\
  (forall file shown,
     load_data file = Halted shown ->
     (forall df stats, load_data file <> Loaded df stats) /\
     forall (P : Type) (rest : DataFrame -> list CountryStat -> P),
       run_script file rest = Stopped shown) /\
  (forall file df stats,
     load_data file = Loaded df stats ->
     load_data_try file = Ok (df, stats)).
Proof.
  split; [reflexivity|]. split; [|split].
  - intros file e He. unfold load_data. rewrite He. now destruct e.
  - intros file shown Hh. split.
    + intros df stats. rewrite Hh. discriminate.
    + intros P rest. unfold run_script. now rewrite Hh.
  - intros file df stats. unfold load_data.
    destruct (load_data_try file) as [[d s]|e].
    + now intros [= -> ->].
    + destruct e; discriminate.
Qed.

Lemma load_data_failure_halts_witness :
  load_data Malformed = Halted (PreprocessingMessage ParserError) /\
  run_script (Content nine_column_csv) (fun df _ => row_count df)
  = Stopped (PreprocessingMessage ValueError) /\
  run_script Absent (fun df _ => row_count df) = Stopped NotFoundMessage.
Proof.
  destruct load_data_failure_halts as (Habsent & Hraise & Hhalt & _).
  split; [apply (Hraise Malformed ParserError); reflexivity|].
  split.
  - apply (Hhalt (Content nine_column_csv)).
    apply (Hraise (Content nine_column_csv) ValueError). reflexivity.
  - apply (Hhalt Absent). exact Habsent.
Defined.

(** ** Yearly trends *)


Lemma yearly_column (df : DataFrame) (year : Series) (metric : string)
    (xs : list (option Q)) :
  get_col df metric = Some (NumCol xs) ->
  (s <- getitem df metric ;;
   ys <- mapM (fun k => agg_mean s (key_mask year k)) (group_keys year) ;;
   Ok (metric, ys))
  = Ok (metric, year_means year xs).
Proof.
  intros H. unfold getitem. rewrite H. cbn [bind agg_mean].
  now rewrite (mapM_Ok (fun k => mean (take_rows (key_mask year k) xs))).
Qed.



(** ** Scatter plot *)

Lemma has_column_get_col (df : DataFrame) (col : string) :
  has_column df col = true <-> exists s, get_col df col = Some s.
Proof.
  unfold has_column, columns.
  induction df as [|[l s] t IH]; simpl.
  - split; [discriminate|]. now intros [s H].
  - rewrite (String.eqb_sym col l). destruct (String.eqb l col); simpl.
    + split; [now exists s|reflexivity].
    + exact IH.
Qed.

Lemma cells_length (s : Series) : length (cells s) = series_len s.
Proof. destruct s; simpl; apply length_map. Qed.

Lemma rectangular_get_col (df : DataFrame) (col : string) (s : Series) :
  rectangular df = true -> get_col df col = Some s ->
  series_len s = row_count df.
Proof.
  unfold rectangular. generalize (row_count df). intros n.
  induction df as [|[l s0] t IH]; simpl; [discriminate|].
  rewrite andb_true_iff, Nat.eqb_eq. intros [H0 Ht].
  destruct (String.eqb l col); [now intros [= <-]|now apply IH].
Qed.

(** C9.  When one of the two axis metrics is not a column of the filtered
    table the scatter view is the warning.  Otherwise it is a chart with
    one point per row, the row's two metric cells, coloured by Year
    exactly when the country selection is "All". *)
Theorem scatter_view_warning_or_points
    (df_filtered : DataFrame) (selected_country x y : string) :
  (has_column df_filtered x = false \/ has_column df_filtered y = false ->
   scatter_view df_filtered selected_country x y = Ok ScatterWarning) /\
  (forall xs ys year,
     rectangular df_filtered = true ->
     get_col df_filtered x = Some xs ->
     get_col df_filtered y = Some ys ->
     get_col df_filtered "Year" = Some year ->
     exists points color,
       scatter_view df_filtered selected_country x y
       = Ok (ScatterChart points color) /\
       points = combine (cells xs) (cells ys) /\
       length points = row_count df_filtered /\
       (selected_country = "All" -> color = Some (cells year)) /\
       (selected_country <> "All" -> color = None)).
Proof.
  split.
  - unfold scatter_view. intros [H|H]; rewrite H; [reflexivity|].
    now rewrite andb_false_r.
  - intros xs ys year Hrect Hx Hy Hyear.
    assert (Hcx : has_column df_filtered x = true)
      by (apply has_column_get_col; now exists xs).
    assert (Hcy : has_column df_filtered y = true)
      by (apply has_column_get_col; now exists ys).
    unfold scatter_view, getitem. rewrite Hcx, Hcy, Hx, Hy, Hyear.
    cbn [andb bind].
    assert (Hlen : length (combine (cells xs) (cells ys)) = row_count df_filtered).
    { rewrite length_combine, !cells_length.
      rewrite (rectangular_get_col _ _ _ Hrect Hx),
              (rectangular_get_col _ _ _ Hrect Hy).
      apply Nat.min_id. }
    destruct (String.eqb_spec selected_country "All") as [->|Hne]; cbn [bind];
      do 2 eexists; (split; [reflexivity|]); (split; [reflexivity|]);
      (split; [exact Hlen|]); split; congruence.
Qed.

Lemma scatter_view_warning_or_points_witness :
  scatter_view (loaded_table (Content sample_csv)) "A" "Rainfall" "Population"
  = Ok ScatterWarning /\
  exists points,
    scatter_view (loaded_table (Content sample_csv)) "All"
                 "Rainfall_mm" "Population"
    = Ok (ScatterChart points
            (Some [Some (Num 2000); Some (Num 2001); Some (Num 2000);
                   Some (Num 2001)])) /\
    length points = 4%nat.
Proof.
  split.
  - apply (scatter_view_warning_or_points
             (loaded_table (Content sample_csv)) "A" "Rainfall" "Population").
    left. reflexivity.
  - destruct (proj2 (scatter_view_warning_or_points
                       (loaded_table (Content sample_csv)) "All"
                       "Rainfall_mm" "Population")
                    (NumCol [Some 900; Some 1100; Some 300; Some 500])
                    (NumCol [Some 1000; Some 1010; Some 5000; Some 5100])
                    (NumCol [Some 2000; Some 2001; Some 2000; Some 2001])
                    eq_refl eq_refl eq_refl eq_refl)
      as (points & color & Hview & _ & Hlen & Hall & _).
    exists points. rewrite (Hall eq_refl) in Hview.
    split; [exact Hview|exact Hlen].
Defined.

(** ** Correlation *)














Section CorrelationFacts.
Variable sqrt : Q -> Q.
Hypothesis sqrt_square : forall s, 0 <= s -> sqrt (s * s) == s.


End CorrelationFacts.



(** ** The tables the views receive *)

Lemma take_rows_length {A B : Type} (mask : list bool) (xs : list A) (ys : list B) :
  length xs = length ys ->
  length (take_rows mask xs) = length (take_rows mask ys).
Proof.
  revert xs ys. induction mask as [|b m IH]; intros [|x xs] [|y ys] H;
    simpl in *; try discriminate; try reflexivity.
  injection H as H. destruct b; simpl; auto.
Qed.

Lemma series_take_len (mask : list bool) (s s' : Series) :
  series_len s = series_len s' ->
  series_len (series_take mask s) = series_len (series_take mask s').
Proof.
  destruct s, s'; simpl; apply take_rows_length.
Qed.

Lemma rectangular_filter (df : DataFrame) (mask : list bool) :
  rectangular df = true ->
  rectangular (map (fun c => (fst c, series_take mask (snd c))) df) = true.
Proof.
  unfold rectangular. destruct df as [|[l0 s0] t]; [reflexivity|].
  set (df := (l0, s0) :: t).
  change (row_count (map _ df)) with (series_len (series_take mask s0)).
  change (row_count df) with (series_len s0).
  rewrite !forallb_forall.
  intros H c Hc. apply in_map_iff in Hc as ([l s] & <- & Hin).
  cbn [fst snd]. apply Nat.eqb_eq, series_take_len, Nat.eqb_eq.
  now apply (H (l, s)).
Qed.


(** * Further properties of the code *)

(** ** Group keys and the country list *)

Lemma scalar_eqb_sym (a b : Scalar) : scalar_eqb a b = scalar_eqb b a.
Proof.
  destruct a as [x|x], b as [y|y]; simpl; try reflexivity.
  - destruct (Qeq_bool x y) eqn:E1, (Qeq_bool y x) eqn:E2; try reflexivity.
    + apply Qeq_bool_iff in E1. symmetry in E1. apply Qeq_bool_iff in E1.
      congruence.
    + apply Qeq_bool_iff in E2. symmetry in E2. apply Qeq_bool_iff in E2.
      congruence.
  - apply String.eqb_sym.
Qed.

Lemma unique_separated (l : list Scalar) (a b : Scalar) :
  In a (unique l) -> In b (unique l) -> scalar_eqb a b = true -> a = b.
Proof.
  induction l as [|x t IH]; simpl; [tauto|].
  intros [Ha|Ha] [Hb|Hb] E; subst.
  - reflexivity.
  - apply filter_In in Hb as [_ Hb]. now rewrite E in Hb.
  - apply filter_In in Ha as [_ Ha]. rewrite scalar_eqb_sym, E in Ha.
    discriminate.
  - apply filter_In in Ha as [Ha _]. apply filter_In in Hb as [Hb _].
    now apply IH.
Qed.

Lemma scalar_leb_total (a b : Scalar) :
  scalar_leb a b = true \/ scalar_leb b a = true.
Proof.
  destruct a as [x|x], b as [y|y]; simpl; auto.
  - apply Qle_bool_total.
  - apply String.leb_total.
Qed.

(** X1.  The keys of a group-by are the values of the key column: each
    key is a cell of the column, each non-missing cell has its key, no
    two keys are equal, and the keys come in ascending order. *)
Theorem group_keys_sorted_distinct (key : Series) :
  Sorted (fun a b => scalar_leb a b = true) (group_keys key) /\
  (forall k, In k (group_keys key) -> In (Some k) (cells key)) /\
  (forall k, In (Some k) (cells key) ->
             exists k', In k' (group_keys key) /\ scalar_eqb k' k = true) /\
  (forall a b, In a (group_keys key) -> In b (group_keys key) ->
               scalar_eqb a b = true -> a = b).
Proof.
  pose proof (group_keys_perm key) as Hp.
  split; [apply (sort_by_sorted scalar_leb scalar_leb_total)|].
  split; [|split].
  - intros k Hk. apply (Permutation_in _ Hp) in Hk.
    apply unique_incl in Hk. now apply dropna_In.
  - intros k Hk. apply dropna_In in Hk.
    destruct (unique_complete _ _ Hk) as (k' & Hin & Heq).
    exists k'. split; [|exact Heq].
    apply (Permutation_in _ (Permutation_sym Hp)). exact Hin.
  - intros a b Ha Hb. apply (Permutation_in _ Hp) in Ha, Hb.
    now apply (unique_separated (dropna (cells key))).
Qed.

Lemma filter_map_comm {A B : Type} (f : B -> bool) (g : A -> B) (l : list A) :
  filter f (map g l) = map g (filter (fun a => f (g a)) l).
Proof.
  induction l as [|a t IH]; simpl; [reflexivity|].
  destruct (f (g a)); simpl; now rewrite IH.
Qed.

Lemma unique_cells_Some (l : list Scalar) :
  unique_cells (map Some l) = map Some (unique l).
Proof.
  induction l as [|x t IH]; simpl; [reflexivity|].
  now rewrite IH, filter_map_comm.
Qed.

Lemma dropna_Some {A : Type} (l : list A) : dropna (map Some l) = l.
Proof. induction l as [|x t IH]; simpl; [reflexivity|now rewrite IH]. Qed.

Lemma no_missing_Some {A : Type} (xs : list (option A)) :
  count_missing xs = 0%nat -> xs = map Some (dropna xs).
Proof.
  unfold count_missing.
  induction xs as [|[x|] t IH]; simpl; [reflexivity| |discriminate].
  intros H. now rewrite <- IH.
Qed.

Lemma existsb_map_Some (f : option Scalar -> bool) (l : list Scalar) :
  existsb f (map Some l) = existsb (fun x => f (Some x)) l.
Proof. induction l as [|x t IH]; simpl; [reflexivity|now rewrite IH]. Qed.

Lemma unique_Str (l : list string) (k : Scalar) :
  In k (unique (map Str l)) -> exists s, k = Str s.
Proof.
  intros H. apply unique_incl, in_map_iff in H as (s & <- & _). now exists s.
Qed.

Section SidebarFacts.
Variable nan_order : list (option Scalar) -> list (option Scalar).

(** Sorting strings never raises. *)
Lemma sorted_strings (l : list Scalar) :
  (forall k, In k l -> exists s, k = Str s) ->
  sorted nan_order (map Some l) = Ok (map Some (sort_by scalar_leb l)).
Proof.
  intros Hstr. destruct l as [|a [|b t]]; [reflexivity|reflexivity|].
  set (l := a :: b :: t) in *. unfold sorted.
  change (map Some l) with (Some a :: Some b :: map Some t) at 1.
  assert (Hno : existsb (fun c => negb (is_str c)) (map Some l) = false).
  { rewrite existsb_map_Some. apply Bool.not_true_iff_false. intros H.
    apply existsb_exists in H as (k & Hk & Hn).
    destruct (Hstr k Hk) as [s ->]. discriminate. }
  assert (Hnan : existsb is_nan (map Some l) = false).
  { rewrite existsb_map_Some. clear. now induction l. }
  rewrite Hno, Hnan, Bool.andb_false_r, dropna_Some. reflexivity.
Qed.

(** The country list of a column of strings without a gap is "All"
    followed by the group keys of the column. *)
Lemma country_list_named (df : DataFrame) (xs : list (option string)) :
  get_col df "Country" = Some (ObjCol xs) ->
  count_missing xs = 0%nat ->
  country_list nan_order df
  = Ok (Some (Str "All") :: map Some (group_keys (ObjCol xs))).
Proof.
  intros Hkey Hfull. unfold country_list, getitem. rewrite Hkey.
  cbn [bind cells]. rewrite (no_missing_Some xs Hfull) at 1.
  rewrite map_map. cbn [option_map]. rewrite <- (map_map Str Some).
  rewrite unique_cells_Some, sorted_strings by apply unique_Str.
  cbn [bind]. unfold group_keys. cbn [cells]. now rewrite dropna_map.
Qed.

Lemma Sorted_map_Str (names : list string) :
  Sorted (fun a b => scalar_leb a b = true) (map Str names) ->
  Sorted (fun a b => String.leb a b = true) names.
Proof.
  induction names as [|a t IH]; intros H; [constructor|].
  simpl in H. apply Sorted_inv in H as [Hs Hhd].
  constructor; [now apply IH|].
  destruct t as [|b t]; constructor. now inversion Hhd.
Qed.

Lemma all_Str_names (l : list Scalar) :
  (forall k, In k l -> exists s, k = Str s) -> exists names, l = map Str names.
Proof.
  induction l as [|k t IH]; intros H; [now exists []|].
  destruct (H k (or_introl eq_refl)) as [s ->].
  destruct IH as [names ->]; [intros k Hk; apply H; now right|].
  now exists (s :: names).
Qed.

(** X2.  When every row has a country, the country list is "All"
    followed by the countries of the table, each once, in ascending
    order. *)
Theorem country_list_sorted_distinct (df : DataFrame)
    (xs : list (option string)) :
  get_col df "Country" = Some (ObjCol xs) ->
  count_missing xs = 0%nat ->
  exists names,
    country_list nan_order df
    = Ok (Some (Str "All") :: map (fun c => Some (Str c)) names) /\
    Sorted (fun a b => String.leb a b = true) names /\
    NoDup names /\
    forall c, In c names <-> In (Some c) xs.
Proof.
  intros Hkey Hfull.
  destruct (all_Str_names (group_keys (ObjCol xs))) as [names Hnames].
  { intros k Hk. apply group_keys_ObjCol in Hk as (s & -> & _). now exists s. }
  exists names. rewrite (country_list_named df xs Hkey Hfull), Hnames, map_map.
  split; [reflexivity|]. split; [|split].
  - apply Sorted_map_Str. rewrite <- Hnames.
    apply (sort_by_sorted scalar_leb scalar_leb_total).
  - apply (NoDup_map_inv Str). rewrite <- Hnames. apply group_keys_NoDup.
  - intros c. split; intros H.
    + assert (Hk : In (Str c) (group_keys (ObjCol xs)))
        by (rewrite Hnames; now apply in_map).
      apply group_keys_ObjCol in Hk as (s & [= <-] & Hs). exact Hs.
    + assert (Hk : In (Str c) (group_keys (ObjCol xs)))
        by (apply group_keys_ObjCol; now exists c).
      rewrite Hnames in Hk. apply in_map_iff in Hk as (c' & [= ->] & Hk).
      exact Hk.
Qed.
End SidebarFacts.

Lemma country_list_sorted_distinct_witness :
  exists names,
    country_list (fun l => l) (loaded_table (Content sample_csv))
    = Ok (Some (Str "All") :: map (fun c => Some (Str c)) names) /\
    Sorted (fun a b => String.leb a b = true) names /\
    NoDup names /\
    forall c, In c names <-> In (Some c) [Some "A"; Some "A"; Some "B"; Some "B"].
Proof.
  apply (country_list_sorted_distinct (fun l => l)
           (loaded_table (Content sample_csv))
           [Some "A"; Some "A"; Some "B"; Some "B"]); reflexivity.
Defined.

Lemma unique_cells_complete (l : list (option Scalar)) (c : option Scalar) :
  In c l -> exists c', In c' (unique_cells l) /\ cell_eqb c' c = true.
Proof.
  assert (Hrefl : forall x, cell_eqb x x = true)
    by (intros [x|]; [apply scalar_eqb_refl|reflexivity]).
  assert (Htrans : forall x y z, cell_eqb x y = true -> cell_eqb y z = true ->
                                 cell_eqb x z = true).
  { intros [x|] [y|] [z|]; simpl; try discriminate; auto.
    apply scalar_eqb_trans. }
  induction l as [|x t IH]; simpl; [tauto|].
  intros [->|H].
  - exists c. split; [now left|apply Hrefl].
  - destruct (IH H) as (c' & Hin & Heq).
    destruct (cell_eqb x c') eqn:Hx.
    + exists x. split; [now left|]. now apply Htrans with c'.
    + exists c'. split; [|exact Heq].
      right. apply filter_In. split; [exact Hin|]. now rewrite Hx.
Qed.

Section SidebarFailure.
Variable sqrt : Q -> Q.
Variable nan_order : list (option Scalar) -> list (option Scalar).

(** A list with a string and a NaN cannot be sorted. *)
Lemma sorted_mixed (l : list (option Scalar)) (s : string) :
  In (Some (Str s)) l -> In None l -> sorted nan_order l = Raise TypeError.
Proof.
  intros Hs Hn.
  assert (H1 : existsb is_str l = true)
    by (apply existsb_exists; now exists (Some (Str s))).
  assert (H2 : existsb (fun c => negb (is_str c)) l = true)
    by (apply existsb_exists; now exists None).
  unfold sorted. destruct l as [|a [|b t]].
  - contradiction.
  - destruct Hs as [->|[]]. destruct Hn as [Hn|[]]. discriminate.
  - now rewrite H1, H2.
Qed.

Lemma country_list_missing (df : DataFrame) (xs : list (option string))
    (c : string) :
  get_col df "Country" = Some (ObjCol xs) ->
  In None xs -> In (Some c) xs ->
  country_list nan_order df = Raise TypeError.
Proof.
  intros Hkey Hnone Hc. unfold country_list, getitem. rewrite Hkey.
  cbn [bind cells]. rewrite (sorted_mixed _ c); [reflexivity| |].
  - destruct (unique_cells_complete (map (option_map Str) xs) (Some (Str c)))
      as ([k|] & Hin & Heq); [now apply (in_map (option_map Str) xs (Some c))| |].
    + simpl in Heq. apply scalar_eqb_Str_r in Heq. now subst k.
    + discriminate.
  - destruct (unique_cells_complete (map (option_map Str) xs) None)
      as ([k|] & Hin & Heq); [now apply (in_map (option_map Str) xs None)| |].
    + discriminate.
    + exact Hin.
Qed.

(** X3.  A file with the expected columns in which one row has no
    country and another has one loads, but the page then fails on its
    country list: sorting a NaN among the names raises [TypeError],
    whatever is selected in the sidebar. *)
Theorem missing_country_breaks_page (df0 : DataFrame) (h : string)
    (xs : list (option string)) (c : string) :
  expected_schema df0 = true ->
  nth_error df0 1 = Some (h, ObjCol xs) ->
  In None xs -> In (Some c) xs ->
  exists df stats,
    load_data (Content df0) = Loaded df stats /\
    country_list nan_order df = Raise TypeError /\
    forall ui, render_views sqrt nan_order ui df stats = Raise TypeError.
Proof.
  intros Hs H1 Hnone Hc.
  destruct (load_data_expected_loads df0 Hs) as (df & stats & Hload).
  exists df, stats. split; [exact Hload|].
  assert (Hkey : get_col df "Country" = Some (ObjCol xs)).
  { destruct (load_data_loaded df0 df stats Hload) as (Hlen & -> & Hcols).
    apply In_get_col; [rewrite Hcols; apply column_names_NoDup|].
    apply (nth_error_In _ 1). rewrite nth_error_map.
    rewrite (nth_error_combine column_names (map snd df0) 1 "Country"
               (ObjCol xs) eq_refl)
      by (now rewrite nth_error_map, H1).
    reflexivity. }
  assert (Hlist : country_list nan_order df = Raise TypeError)
    by (now apply (country_list_missing df xs c)).
  split; [exact Hlist|].
  intros ui. unfold render_views. now rewrite Hlist.
Qed.
End SidebarFailure.

Lemma missing_country_breaks_page_witness :
  exists df stats,
    load_data (Content missing_country_csv) = Loaded df stats /\
    render_views Qsqrt (fun l => l) default_controls df stats = Raise TypeError.
Proof.
  destruct (missing_country_breaks_page Qsqrt (fun l => l) missing_country_csv
              "Country" [Some "A"; None; Some "B"; Some "B"] "A" eq_refl eq_refl)
    as (df & stats & Hload & _ & Hpage).
  - right. now left.
  - now left.
  - exists df, stats. split; [exact Hload|apply Hpage].
Defined.

(** X4.  When every row has a country, the countries the selector offers
    after "All" are the countries of the summary table. *)
Theorem country_list_matches_summary
    (nan_order : list (option Scalar) -> list (option Scalar))
    (df0 : DataFrame) (h : string) (xs : list (option string)) :
  expected_schema df0 = true ->
  nth_error df0 1 = Some (h, ObjCol xs) ->
  count_missing xs = 0%nat ->
  exists df stats options,
    load_data (Content df0) = Loaded df stats /\
    country_list nan_order df = Ok (Some (Str "All") :: options) /\
    Permutation options (map (fun s => Some (Country s)) stats).
Proof.
  intros Hs H1 Hfull.
  destruct (expected_schema_inv df0 Hs)
    as (h0 & h1 & h2 & h3 & h4 & h5 & h6 & h7 & h8 & h9 & year & country & temp
        & co2 & sea & rain & pop & renew & events & forest & ->).
  injection H1 as _ ->.
  rewrite load_data_expected. do 3 eexists. split; [reflexivity|].
  split; [now apply (country_list_named nan_order _ xs)|].
  rewrite <- (map_map Country Some). apply Permutation_map.
  symmetry. rewrite (Permutation_map Country (sort_values_desc_perm _)).
  rewrite map_map. cbn [Country stat_row]. now rewrite map_id.
Qed.

Lemma country_list_matches_summary_witness :
  exists df stats options,
    load_data (Content sample_csv) = Loaded df stats /\
    country_list (fun l => l) df = Ok (Some (Str "All") :: options) /\
    Permutation options (map (fun s => Some (Country s)) stats).
Proof.
  apply (country_list_matches_summary (fun l => l) sample_csv "Country"
           [Some "A"; Some "A"; Some "B"; Some "B"]); reflexivity.
Defined.

(** ** More on the filter step *)

Lemma key_mask_ObjCol (xs : list (option string)) (c : string) :
  key_mask (ObjCol xs) (Str c)
  = map (fun x => match x with
                  | Some s => String.eqb s c
                  | None => false
                  end) xs.
Proof.
  unfold key_mask. cbn [cells]. rewrite map_map.
  apply map_ext. now intros [s|].
Qed.

Lemma take_rows_count {A : Type} (mask : list bool) (l : list A) :
  length l = length mask ->
  length (take_rows mask l) = length (filter (fun b => b) mask).
Proof.
  revert l. induction mask as [|b m IH]; intros [|x l] H; simpl in *;
    try discriminate; [reflexivity|].
  injection H as H. destruct b; simpl; now rewrite IH.
Qed.

Lemma take_rows_all {A : Type} (mask : list bool) (l : list A) :
  Forall (fun b => b = true) mask -> (length l <= length mask)%nat ->
  take_rows mask l = l.
Proof.
  intros Hall. revert l.
  induction Hall as [|b m Hb _ IH]; intros [|x l] H; simpl in *;
    try reflexivity; [lia|].
  subst b. f_equal. apply IH. lia.
Qed.

Lemma series_take_all (mask : list bool) (s : Series) :
  Forall (fun b => b = true) mask -> (series_len s <= length mask)%nat ->
  series_take mask s = s.
Proof.
  intros Hall H. destruct s as [xs|xs]; simpl in *; f_equal;
    now apply take_rows_all.
Qed.

Lemma series_take_length (mask : list bool) (s : Series) :
  series_len (series_take mask s) = length (take_rows mask (cells s)).
Proof. now rewrite <- cells_series_take, cells_length. Qed.

Lemma filter_length_map {A : Type} (f : A -> bool) (l : list A) :
  length (filter (fun b => b) (map f l)) = length (filter f l).
Proof.
  induction l as [|x t IH]; simpl; [reflexivity|].
  destruct (f x); simpl; now rewrite IH.
Qed.

Lemma row_count_get_col (df : DataFrame) (col : string) (s : Series) :
  rectangular df = true -> get_col df col = Some s ->
  row_count df = series_len s.
Proof. intros Hr Hg. symmetry. now apply (rectangular_get_col df col). Qed.

Lemma count_rows_In (xs : list (option string)) (c : string) :
  In (Some c) xs -> (0 < count_rows xs c)%nat.
Proof.
  unfold count_rows. induction xs as [|[s|] t IH]; simpl; [tauto| |].
  - intros [[= ->]|H].
    + rewrite String.eqb_refl. simpl. lia.
    + destruct (String.eqb s c); simpl; [lia|now apply IH].
  - intros [H|H]; [discriminate|now apply IH].
Qed.

(** X5.  Filtering by a country keeps the columns of the table, their
    order, labels and kinds, and keeps it rectangular; the filtered table
    has as many rows as the table has rows of that country, so at least
    one for every country of the table. *)
Theorem filter_country_rows (df : DataFrame) (xs : list (option string))
    (selected_country : string) :
  rectangular df = true ->
  get_col df "Country" = Some (ObjCol xs) ->
  selected_country <> "All" ->
  exists df_filtered,
    filter_country df selected_country = Ok df_filtered /\
    columns df_filtered = columns df /\
    map (fun c => is_number (snd c)) df_filtered
    = map (fun c => is_number (snd c)) df /\
    rectangular df_filtered = true /\
    row_count df_filtered = count_rows xs selected_country /\
    (In (Some selected_country) xs -> (0 < row_count df_filtered)%nat).
Proof.
  intros Hrect Hkey Hne. unfold filter_country, getitem. rewrite Hkey.
  destruct (String.eqb_spec selected_country "All") as [|_]; [contradiction|].
  cbn [negb bind]. set (mask := key_mask (ObjCol xs) (Str selected_country)).
  eexists. split; [reflexivity|].
  assert (Hrows : row_count (map (fun c => (fst c, series_take mask (snd c))) df)
                  = count_rows xs selected_country).
  { destruct df as [|[l0 s0] t]; [discriminate|].
    change (row_count _) with (series_len (series_take mask s0)).
    rewrite series_take_length, take_rows_count.
    - unfold mask. rewrite key_mask_ObjCol. apply filter_length_map.
    - rewrite cells_length. unfold mask. rewrite key_mask_ObjCol, length_map.
      change (series_len s0) with (row_count ((l0, s0) :: t)).
      now rewrite (row_count_get_col _ _ _ Hrect Hkey). }
  split; [unfold columns; rewrite map_map; reflexivity|].
  split.
  { rewrite map_map. apply map_ext. intros [l [ys|ys]]; reflexivity. }
  split; [now apply rectangular_filter|].
  split; [exact Hrows|].
  intros Hin. rewrite Hrows. now apply count_rows_In.
Qed.

Lemma filter_country_rows_witness :
  exists df_filtered,
    filter_country (loaded_table (Content sample_csv)) "B" = Ok df_filtered /\
    columns df_filtered = column_names /\
    row_count df_filtered = 2%nat.
Proof.
  destruct (filter_country_rows (loaded_table (Content sample_csv))
              [Some "A"; Some "A"; Some "B"; Some "B"] "B" eq_refl eq_refl)
    as (df_filtered & Hf & Hcols & _ & _ & Hrows & _); [discriminate|].
  exists df_filtered. split; [exact Hf|]. split; [exact Hcols|exact Hrows].
Defined.

(** X6.  Filtering is idempotent: the filtered table filtered again by
    the same selection is the filtered table. *)
Theorem filter_country_idempotent (df df_filtered : DataFrame)
    (selected_country : string) :
  rectangular df = true ->
  filter_country df selected_country = Ok df_filtered ->
  filter_country df_filtered selected_country = Ok df_filtered.
Proof.
  intros Hrect. unfold filter_country.
  destruct (negb (String.eqb selected_country "All")); [|now intros [= <-]].
  unfold getitem. destruct (get_col df "Country") as [key|] eqn:Hkey;
    [|discriminate].
  cbn [bind]. set (mask := key_mask key (Str selected_country)).
  intros [= <-].
  rewrite (get_col_map (series_take mask)), Hkey. cbn [option_map bind].
  apply (f_equal Ok). rewrite <- (map_id (map _ df)) at 2. apply map_ext_in.
  intros [l s] Hin. cbn [fst snd]. f_equal.
  apply series_take_all.
  - unfold key_mask. rewrite cells_series_take. apply Forall_map.
    eapply Forall_impl; [|apply take_rows_mask_self].
    intros c (k' & -> & Hk). exact Hk.
  - unfold key_mask. rewrite length_map, cells_length.
    pose proof (rectangular_filter df mask Hrect) as Hr.
    assert (Hget : get_col (map (fun c => (fst c, series_take mask (snd c))) df)
                           "Country" = Some (series_take mask key))
      by (now rewrite (get_col_map (series_take mask)), Hkey).
    rewrite <- (row_count_get_col _ _ _ Hr Hget).
    unfold rectangular in Hr. rewrite forallb_forall in Hr.
    specialize (Hr _ Hin). apply Nat.eqb_eq in Hr. cbn [snd] in Hr. lia.
Qed.

Lemma filter_country_idempotent_witness :
  exists df_filtered,
    filter_country (loaded_table (Content sample_csv)) "A" = Ok df_filtered /\
    filter_country df_filtered "A" = Ok df_filtered.
Proof.
  eexists. split; [reflexivity|].
  apply (filter_country_idempotent (loaded_table (Content sample_csv)));
    reflexivity.
Defined.

(** ** More on imputation *)

Lemma fill_idempotent (xs : list (option Q)) : fill (fill xs) = fill xs.
Proof.
  destruct (has_value xs) eqn:H.
  - apply fill_complete. now apply fill_no_missing.
  - now rewrite !(fill_no_value xs H).
Qed.

Lemma impute_one_idempotent (c : string * Series) :
  impute_one (impute_one c) = impute_one c.
Proof.
  destruct c as [l [xs|xs]]; unfold impute_one; cbn [fst snd];
    destruct (String.eqb l "Year") eqn:E; cbn [fst snd]; rewrite ?E;
    try reflexivity.
  now rewrite fill_idempotent.
Qed.

(** X7.  Imputation is idempotent: on a table with distinct labels a
    second pass of the loop changes nothing, and the table a load returns
    is left as it is by the loop. *)
Theorem impute_idempotent :
  (forall df, NoDup (columns df) -> impute (impute df) = impute df) /\
  (forall df0 df stats,
     load_data (Content df0) = Loaded df stats -> impute df = df).
Proof.
  assert (Hidem : forall df, NoDup (columns df) -> impute (impute df) = impute df).
  { intros df Hnd. rewrite (impute_map df Hnd).
    rewrite impute_map
      by (rewrite columns_map_impute; [exact Hnd|apply impute_one_fst]).
    rewrite map_map. apply map_ext. apply impute_one_idempotent. }
  split; [exact Hidem|].
  intros df0 df stats Hload.
  destruct (load_data_loaded df0 df stats Hload) as (Hlen & -> & _).
  set (d := combine column_names (map snd df0)).
  assert (Hnd : NoDup (columns d)).
  { unfold d. rewrite columns_combine by (now rewrite length_map).
    apply column_names_NoDup. }
  rewrite <- (impute_map d Hnd). now apply Hidem.
Qed.

Lemma impute_idempotent_witness :
  impute (loaded_table (Content sample_csv)) = loaded_table (Content sample_csv).
Proof.
  destruct (load_data (Content sample_csv)) as [df stats|e] eqn:Hload;
    [|discriminate].
  assert (Hdf : loaded_table (Content sample_csv) = df)
    by (unfold loaded_table; now rewrite Hload).
  rewrite Hdf. apply (proj2 impute_idempotent sample_csv df stats Hload).
Defined.





(** ** More on the country summary *)













(** ** The ranking *)





(** ** More on the charts *)

Lemma filter_country_columns (df df_filtered : DataFrame)
    (selected_country : string) :
  filter_country df selected_country = Ok df_filtered ->
  columns df_filtered = columns df.
Proof.
  unfold filter_country.
  destruct (negb (String.eqb selected_country "All")); [|now intros [= <-]].
  destruct (getitem df "Country") as [key|e]; [|discriminate].
  cbn [bind]. intros [= <-]. unfold columns. now rewrite map_map.
Qed.

Lemma has_column_metric (df : DataFrame) (m : string) :
  columns df = column_names -> In m metric_options -> has_column df m = true.
Proof.
  intros Hcols Hm. unfold has_column. rewrite Hcols. cbn in Hm.
  repeat (destruct Hm as [<-|Hm]; [reflexivity|]). contradiction.
Qed.

(** X12.  The warning of the scatter view is never shown: on the table of
    any load, for any country selection and any two metrics of the
    sidebar, the view is a chart. *)
Theorem scatter_never_warns (df0 df df_filtered : DataFrame)
    (stats : list CountryStat) (selected_country x y : string) :
  load_data (Content df0) = Loaded df stats ->
  filter_country df selected_country = Ok df_filtered ->
  In x metric_options -> In y metric_options ->
  exists points color,
    scatter_view df_filtered selected_country x y
    = Ok (ScatterChart points color).
Proof.
  intros Hload Hf Hx Hy.
  destruct (load_data_loaded df0 df stats Hload) as (_ & _ & Hcols).
  rewrite <- (filter_country_columns _ _ _ Hf) in Hcols.
  pose proof (has_column_metric _ x Hcols Hx) as Hcx.
  pose proof (has_column_metric _ y Hcols Hy) as Hcy.
  assert (Hyear : has_column df_filtered "Year" = true)
    by (unfold has_column; now rewrite Hcols).
  destruct (proj1 (has_column_get_col _ _) Hcx) as [xs Hxs].
  destruct (proj1 (has_column_get_col _ _) Hcy) as [ys Hys].
  destruct (proj1 (has_column_get_col _ _) Hyear) as [year Hy'].
  unfold scatter_view, getitem. rewrite Hcx, Hcy, Hxs, Hys, Hy'.
  cbn [andb bind].
  destruct (String.eqb selected_country "All"); cbn [bind];
    do 2 eexists; reflexivity.
Qed.

Lemma scatter_never_warns_witness :
  exists points color,
    scatter_view (loaded_table (Content sample_csv)) "All"
                 "Population" "Forest_Area_%"
    = Ok (ScatterChart points color).
Proof.
  destruct (load_data (Content sample_csv)) as [df stats|e] eqn:Hload;
    [|discriminate].
  assert (Hdf : loaded_table (Content sample_csv) = df)
    by (unfold loaded_table; now rewrite Hload).
  rewrite Hdf.
  apply (scatter_never_warns sample_csv df df stats "All" "Population"
           "Forest_Area_%" Hload eq_refl); simpl; tauto.
Defined.


Section CorrelationShape.
Variable sqrt : Q -> Q.
Hypothesis sqrt_square : forall s, 0 <= s -> sqrt (s * s) == s.


End CorrelationShape.


(** ** The page as a whole *)





Section PageFacts.
Variable sqrt : Q -> Q.
Variable nan_order : list (option Scalar) -> list (option Scalar).



End PageFacts.



(** ** Means and medians *)


















(** ** A metric that is not a column *)

Lemma mapM_raises {A B : Type} (f : A -> Exn B) (l : list A)
    (P : A -> Prop) (e : A -> Exception) :
  (forall x, In x l -> (exists b, f x = Ok b) \/ (P x /\ f x = Raise (e x))) ->
  (exists a, In a l /\ forall b, f a <> Ok b) ->
  exists x, In x l /\ P x /\ mapM f l = Raise (e x).
Proof.
  induction l as [|y t IH]; intros Hall (a & Hin & Hbad); [contradiction|].
  destruct (Hall y (or_introl eq_refl)) as [[b Hb]|[Hy Hr]].
  - destruct IH as (x & Hx & Hpx & Hm).
    + intros x Hx. apply Hall. now right.
    + exists a. split; [|exact Hbad].
      destruct Hin as [->|Hin]; [|exact Hin]. now destruct (Hbad b).
    + exists x. split; [now right|]. split; [exact Hpx|].
      cbn [mapM]. rewrite Hb. cbn [bind]. now rewrite Hm.
  - exists y. split; [now left|]. split; [exact Hy|].
    cbn [mapM]. now rewrite Hr.
Qed.

(** X16.  A selected metric that is not a column of the table makes the
    trend view and the correlation view raise [KeyError], while the
    scatter view, which tests for its two columns first, only shows its
    warning. *)
Theorem unknown_metric_raises (sqrt : Q -> Q) (df : DataFrame)
    (selected_country : string) (metrics : list string) (m : string)
    (year : Series) :
  get_col df "Year" = Some year ->
  In m metrics -> get_col df m = None ->
  (forall m', In m' metrics ->
              get_col df m' = None \/
              exists xs, get_col df m' = Some (NumCol xs)) ->
  (exists l, In l metrics /\ get_col df l = None /\
             trend_view df selected_country metrics = Raise (KeyError l)) /\
  ((2 <= length metrics)%nat ->
   exists l, In l metrics /\ get_col df l = None /\
             corr_view sqrt df selected_country metrics = Raise (KeyError l)) /\
  (forall y, scatter_view df selected_country m y = Ok ScatterWarning /\
             scatter_view df selected_country y m = Ok ScatterWarning).
Proof.
  intros Hyear Hin Hnone Hall.
  split; [|split].
  - destruct (mapM_raises
                (fun metric =>
                   s <- getitem df metric ;;
                   ys <- mapM (fun k => agg_mean s (key_mask year k))
                              (group_keys year) ;;
                   Ok (metric, ys))
                metrics (fun l => get_col df l = None) KeyError)
      as (l & Hl & Hln & Hm).
    + intros x Hx. destruct (Hall x Hx) as [Hx0|[xs Hxs]].
      * right. split; [exact Hx0|]. unfold getitem. now rewrite Hx0.
      * left. eexists. apply (yearly_column df year x xs Hxs).
    + exists m. split; [exact Hin|]. intros b. unfold getitem.
      rewrite Hnone. discriminate.
    + exists l. split; [exact Hl|]. split; [exact Hln|].
      unfold trend_view. destruct metrics as [|m0 t]; [contradiction|].
      unfold yearly_means, getitem at 1. rewrite Hyear. cbn [bind].
      now rewrite Hm.
  - intros Hlen.
    destruct (mapM_raises
                (fun metric => s <- getitem df metric ;; as_float s)
                metrics (fun l => get_col df l = None) KeyError)
      as (l & Hl & Hln & Hm).
    + intros x Hx. destruct (Hall x Hx) as [Hx0|[xs Hxs]].
      * right. split; [exact Hx0|]. unfold getitem. now rewrite Hx0.
      * left. exists xs. unfold getitem. now rewrite Hxs.
    + exists m. split; [exact Hin|]. intros b. unfold getitem.
      rewrite Hnone. discriminate.
    + exists l. split; [exact Hl|]. split; [exact Hln|].
      unfold corr_view.
      destruct (Nat.ltb_spec (length metrics) 2) as [H|_]; [lia|].
      unfold corr. now rewrite Hm.
  - assert (Hm : has_column df m = false).
    { destruct (has_column df m) eqn:E; [|reflexivity].
      apply has_column_get_col in E as [s Hs]. congruence. }
    intros y. unfold scatter_view. rewrite Hm.
    split; [reflexivity|]. now rewrite Bool.andb_false_r.
Qed.

Lemma unknown_metric_raises_witness :
  trend_view (loaded_table (Content sample_csv)) "All" ["Population"; "GDP"]
  = Raise (KeyError "GDP") /\
  scatter_view (loaded_table (Content sample_csv)) "All" "GDP" "Population"
  = Ok ScatterWarning.
Proof.
  destruct (unknown_metric_raises Qsqrt (loaded_table (Content sample_csv))
              "All" ["Population"; "GDP"] "GDP"
              (NumCol [Some 2000; Some 2001; Some 2000; Some 2001])
              eq_refl)
    as ((l & Hl & Hnone & Htrend) & _ & Hscatter).
  - right. now left.
  - reflexivity.
  - intros m' [<-|[<-|[]]]; [right; eexists; reflexivity|now left].
  - split; [|apply Hscatter].
    destruct Hl as [<-|[<-|[]]]; [discriminate Hnone|exact Htrend].
Defined.
